(** * Shallow embedding of the SWC Fantasy Football read-only API (src/main.py)

    The endpoint layer ([main.py]) is embedded from the source.  The query
    layer ([crud.py]), the schemas ([schemas.py]) and the session factory
    ([database.py]) belong to the repository but are not part of [src/]; they
    are modelled from the spec, and each such definition says so in its doc
    comment.

    The request pipeline of the web framework is modelled as far as the
    claims need it: the dependency [get_db] is entered before the query
    parameters are validated, the endpoint runs, and the generator's
    [finally] block runs on every exit path; a returned value becomes a 200
    response, an [HTTPException] its status and [{"detail": ...}] body, a
    validation failure a 422 and any other failure a 500. *)

From Stdlib Require Import ZArith List String Bool Lia Sorting.Permutation
  Sorting.Sorted.
Import ListNotations.

Local Open Scope Z_scope.

(** ** Data model *)

(** Modelled from the spec (schemas.py and models.py are not in src/):
    the attributes the API filters on.  Dates are day numbers; descriptive
    attributes that no filter or claim uses are left out. *)
Record Player := mkPlayer {
  player_id : Z;
  first_name : string;
  last_name : string;
  player_last_changed_date : Z }.

Record Performance := mkPerformance {
  performance_id : Z;
  performance_player_id : Z;
  week_number : string;
  performance_last_changed_date : Z }.

Record League := mkLeague {
  league_id : Z;
  league_name : string;
  league_last_changed_date : Z }.

Record Team := mkTeam {
  team_id : Z;
  team_name : string;
  team_league_id : Z;
  team_last_changed_date : Z }.

Record Counts := mkCounts {
  league_count : Z;
  team_count : Z;
  player_count : Z }.

(** The external store: the four collections, and whether it answers. *)
Record Store := mkStore {
  players : list Player;
  performances : list Performance;
  leagues : list League;
  teams : list Team;
  store_up : bool }.

(** ** Ordering by primary identity *)

Section SortBy.
Context {A : Type} (key : A -> Z).

Fixpoint insert_by (x : A) (l : list A) : list A :=
  match l with
  | [] => [x]
  | y :: t => if key x <=? key y then x :: y :: t else y :: insert_by x t
  end.

Fixpoint sort_by (l : list A) : list A :=
  match l with
  | [] => []
  | x :: t => insert_by x (sort_by t)
  end.

(** Modelled from the spec (crud.py is not in src/): filter, order by
    identity ascending, then drop [skip] and keep at most [limit]
    records.  The spec defines [skip] and [limit] only for non-negative
    values; [Z.to_nat] sends negative ones to 0. *)
Definition window (keep : A -> bool) (skip limit : Z) (xs : list A)
  : list A :=
  firstn (Z.to_nat limit) (skipn (Z.to_nat skip) (sort_by (filter keep xs))).
End SortBy.

(** ** Filters *)

(** An absent filter is no constraint. *)
Definition opt_filter {B : Type} (f : option B) (p : B -> bool) : bool :=
  match f with
  | None => true
  | Some x => p x
  end.

(** Modelled from the spec: every provided filter is combined with AND;
    the date filter is an inclusive lower bound; string filters are
    case-sensitive exact matches. *)
Definition player_matches (min_last_changed_date : option Z)
  (first_name_f last_name_f : option string) (p : Player) : bool :=
  opt_filter min_last_changed_date
    (fun d => d <=? player_last_changed_date p)
  && opt_filter first_name_f (fun s => String.eqb (first_name p) s)
  && opt_filter last_name_f (fun s => String.eqb (last_name p) s).

Definition performance_matches (min_last_changed_date : option Z)
  (p : Performance) : bool :=
  opt_filter min_last_changed_date
    (fun d => d <=? performance_last_changed_date p).

Definition league_matches (min_last_changed_date : option Z)
  (league_name_f : option string) (l : League) : bool :=
  opt_filter min_last_changed_date
    (fun d => d <=? league_last_changed_date l)
  && opt_filter league_name_f (fun s => String.eqb (league_name l) s).

Definition team_matches (min_last_changed_date : option Z)
  (team_name_f : option string) (league_id_f : option Z) (t : Team) : bool :=
  opt_filter min_last_changed_date
    (fun d => d <=? team_last_changed_date t)
  && opt_filter team_name_f (fun s => String.eqb (team_name t) s)
  && opt_filter league_id_f (fun i => team_league_id t =? i).

(** ** Request state: sessions, an event log, the store *)

Inductive query :=
| QGetPlayers (skip limit : Z) (d : option Z) (f l : option string)
| QGetPlayer (id : Z)
| QGetPerformances (skip limit : Z) (d : option Z)
| QGetLeague (id : Z)
| QGetLeagues (skip limit : Z) (d : option Z) (n : option string)
| QGetTeams (skip limit : Z) (d : option Z) (n : option string) (lid : option Z)
| QLeagueCount
| QTeamCount
| QPlayerCount.

Inductive event :=
| Acquire (db : Z)
| Release (db : Z)
| QueryCall (db : Z) (q : query).

Record state := mkState {
  st_store : Store;
  open_sessions : list Z;
  next_session : Z;
  st_log : list event }.

Inductive exn :=
| HTTPException (status_code : Z) (detail : string)
| RequestValidationError
| StoreError.

Inductive outcome (A : Type) :=
| Ret (a : A)
| Exc (e : exn).
Arguments Ret {A} a.
Arguments Exc {A} e.

Definition M (A : Type) := state -> outcome A * state.

Definition ret {A} (a : A) : M A := fun st => (Ret a, st).
Definition raise {A} (e : exn) : M A := fun st => (Exc e, st).
Definition bind {A B} (m : M A) (k : A -> M B) : M B :=
  fun st =>
    match m st with
    | (Ret a, st') => k a st'
    | (Exc e, st') => (Exc e, st')
    end.

Notation "x <- m ;; k" := (bind m (fun x => k))
  (at level 61, m at next level, right associativity).

Definition log_event (e : event) (st : state) : state :=
  {| st_store := st_store st; open_sessions := open_sessions st;
     next_session := next_session st; st_log := st_log st ++ [e] |}.

(** ** The session dependency *)

(** Modelled from the spec (database.py is not in src/): [SessionLocal()]
    opens a fresh session, [db.close()] releases it. *)
Definition SessionLocal : M Z :=
  fun st =>
    let db := next_session st in
    (Ret db,
     {| st_store := st_store st; open_sessions := db :: open_sessions st;
        next_session := db + 1; st_log := st_log st ++ [Acquire db] |}).

Definition close (db : Z) : M unit :=
  fun st =>
    (Ret tt,
     {| st_store := st_store st;
        open_sessions := remove Z.eq_dec db (open_sessions st);
        next_session := next_session st; st_log := st_log st ++ [Release db] |}).

(** [get_db]: [db = SessionLocal(); try: yield db finally: db.close()].
    The body run while the generator is suspended at [yield] is [body db];
    the [finally] block runs whatever its outcome. *)
Definition get_db {A} (body : Z -> M A) : M A :=
  fun st =>
    match SessionLocal st with
    | (Ret db, st1) =>
        let '(o, st2) := body db st1 in
        let '(_, st3) := close db st2 in
        (o, st3)
    | (Exc e, st1) => (Exc e, st1)
    end.

(** ** Query layer *)

Module crud.
(** Modelled from the spec (crud.py is not in src/): each operation is
    one read against the store through the session [db]; a store that
    does not answer makes it fail. *)
Definition read_store {A} (db : Z) (q : query) (k : Store -> A) : M A :=
  fun st =>
    let st' := log_event (QueryCall db q) st in
    if store_up (st_store st) then (Ret (k (st_store st)), st')
    else (Exc StoreError, st').

Definition get_players (db skip limit : Z) (min_last_changed_date : option Z)
  (first_name last_name : option string) : M (list Player) :=
  read_store db (QGetPlayers skip limit min_last_changed_date first_name last_name)
    (fun s => window player_id
                (player_matches min_last_changed_date first_name last_name)
                skip limit (players s)).

Definition get_player (db player_id_ : Z) : M (option Player) :=
  read_store db (QGetPlayer player_id_)
    (fun s => find (fun p => player_id p =? player_id_) (players s)).

Definition get_performances (db skip limit : Z)
  (min_last_changed_date : option Z) : M (list Performance) :=
  read_store db (QGetPerformances skip limit min_last_changed_date)
    (fun s => window performance_id
                (performance_matches min_last_changed_date)
                skip limit (performances s)).

Definition get_league (db league_id_ : Z) : M (option League) :=
  read_store db (QGetLeague league_id_)
    (fun s => find (fun l => league_id l =? league_id_) (leagues s)).

Definition get_leagues (db skip limit : Z) (min_last_changed_date : option Z)
  (league_name : option string) : M (list League) :=
  read_store db (QGetLeagues skip limit min_last_changed_date league_name)
    (fun s => window league_id
                (league_matches min_last_changed_date league_name)
                skip limit (leagues s)).

Definition get_teams (db skip limit : Z) (min_last_changed_date : option Z)
  (team_name : option string) (league_id_ : option Z) : M (list Team) :=
  read_store db (QGetTeams skip limit min_last_changed_date team_name league_id_)
    (fun s => window team_id
                (team_matches min_last_changed_date team_name league_id_)
                skip limit (teams s)).

Definition get_league_count (db : Z) : M Z :=
  read_store db QLeagueCount (fun s => Z.of_nat (List.length (leagues s))).

Definition get_team_count (db : Z) : M Z :=
  read_store db QTeamCount (fun s => Z.of_nat (List.length (teams s))).

Definition get_player_count (db : Z) : M Z :=
  read_store db QPlayerCount (fun s => Z.of_nat (List.length (players s))).
End crud.

(** ** Endpoint layer (main.py) *)

Inductive body :=
| BMessage (key value : string)
| BDetail (detail : string)
| BValidationError
| BServerError
| BPlayers (ps : list Player)
| BPlayer (p : Player)
| BPerformances (ps : list Performance)
| BLeague (l : League)
| BLeagues (ls : list League)
| BTeams (ts : list Team)
| BCounts (c : Counts).

Definition root : M body :=
  ret (BMessage "message" "API health check successful").

Definition read_players (skip limit : Z) (minimum_last_changed_date : option Z)
  (first_name last_name : option string) (db : Z) : M body :=
  players <- crud.get_players db skip limit minimum_last_changed_date
               first_name last_name ;;
  ret (BPlayers players).

Definition read_player (player_id_ : Z) (db : Z) : M body :=
  player <- crud.get_player db player_id_ ;;
  match player with
  | None => raise (HTTPException 404 "Player not found")
  | Some p => ret (BPlayer p)
  end.

Definition read_performances (skip limit : Z)
  (minimum_last_changed_date : option Z) (db : Z) : M body :=
  performances <- crud.get_performances db skip limit minimum_last_changed_date ;;
  ret (BPerformances performances).

Definition read_league (league_id_ : Z) (db : Z) : M body :=
  league <- crud.get_league db league_id_ ;;
  match league with
  | None => raise (HTTPException 404 "League not found")
  | Some l => ret (BLeague l)
  end.

Definition read_leagues (skip limit : Z) (minimum_last_changed_date : option Z)
  (league_name : option string) (db : Z) : M body :=
  leagues <- crud.get_leagues db skip limit minimum_last_changed_date league_name ;;
  ret (BLeagues leagues).

Definition read_teams (skip limit : Z) (minimum_last_changed_date : option Z)
  (team_name : option string) (league_id_ : option Z) (db : Z) : M body :=
  teams <- crud.get_teams db skip limit minimum_last_changed_date team_name
             league_id_ ;;
  ret (BTeams teams).

Definition get_count (db : Z) : M body :=
  lc <- crud.get_league_count db ;;
  tc <- crud.get_team_count db ;;
  pc <- crud.get_player_count db ;;
  ret (BCounts {| league_count := lc; team_count := tc; player_count := pc |}).

(** ** Request parsing and dispatch *)

(** An integer query parameter as declared in main.py: its default, and
    the lower bound a [Query(..., ge=...)] would add.  No parameter of
    main.py declares a bound. *)
Record query_param := mkQueryParam { qp_default : Z; qp_ge : option Z }.

Definition skip_param : query_param := mkQueryParam 0 None.
Definition limit_param : query_param := mkQueryParam 100 None.

Definition validate (p : query_param) (v : option Z) : M Z :=
  match v with
  | None => ret (qp_default p)
  | Some z =>
      match qp_ge p with
      | Some g => if z <? g then raise RequestValidationError else ret z
      | None => ret z
      end
  end.

(** A request, with its parameters already parsed to their declared types
    ([None] for an absent query parameter). *)
Inductive request :=
| GetRoot
| GetPlayers (skip limit : option Z) (d : option Z) (f l : option string)
| GetPlayer (player_id : Z)
| GetPerformances (skip limit : option Z) (d : option Z)
| GetLeague (league_id : Z)
| GetLeagues (skip limit : option Z) (d : option Z) (n : option string)
| GetTeams (skip limit : option Z) (d : option Z) (n : option string)
    (lid : option Z)
| GetCounts.

(** Dependencies are solved first (entering [get_db]), then the query
    parameters are validated, then the endpoint runs. *)
Definition endpoint (r : request) : M body :=
  match r with
  | GetRoot => root
  | GetPlayers s l d f n =>
      get_db (fun db => s' <- validate skip_param s ;;
                        l' <- validate limit_param l ;;
                        read_players s' l' d f n db)
  | GetPlayer i => get_db (read_player i)
  | GetPerformances s l d =>
      get_db (fun db => s' <- validate skip_param s ;;
                        l' <- validate limit_param l ;;
                        read_performances s' l' d db)
  | GetLeague i => get_db (read_league i)
  | GetLeagues s l d n =>
      get_db (fun db => s' <- validate skip_param s ;;
                        l' <- validate limit_param l ;;
                        read_leagues s' l' d n db)
  | GetTeams s l d n lid =>
      get_db (fun db => s' <- validate skip_param s ;;
                        l' <- validate limit_param l ;;
                        read_teams s' l' d n lid db)
  | GetCounts => get_db get_count
  end.

Record response := mkResponse { status : Z; resp_body : body }.

Definition to_response (o : outcome body) : response :=
  match o with
  | Ret b => mkResponse 200 b
  | Exc (HTTPException c d) => mkResponse c (BDetail d)
  | Exc RequestValidationError => mkResponse 422 BValidationError
  | Exc StoreError => mkResponse 500 BServerError
  end.

Definition handle (r : request) (st : state) : response * state :=
  let '(o, st') := endpoint r st in (to_response o, st').

(** Events appended to the log by one request. *)
Definition new_events (st st' : state) : list event :=
  skipn (List.length (st_log st)) (st_log st').

Definition is_query (e : event) : bool :=
  match e with QueryCall _ _ => true | _ => false end.

Definition query_count (st st' : state) : nat :=
  List.length (filter is_query (new_events st st')).

(** Identity order on records. *)
Definition key_le {A} (key : A -> Z) (a b : A) : Prop := key a <= key b.
Definition key_lt {A} (key : A -> Z) (a b : A) : Prop := key a < key b.

(** The number of matching records whose identity is smaller than that
    of [y]: the position of [y] in identity-ascending order. *)
Definition rank {A} (key : A -> Z) (keep : A -> bool) (xs : list A) (y : A)
  : nat :=
  List.length (filter (fun x => key x <? key y) (filter keep xs)).

(** ** Filter semantics, spec side *)

(** A provided filter's condition holds; an absent one constrains nothing. *)
Definition provided {B : Type} (f : option B) (P : B -> Prop) : Prop :=
  forall x, f = Some x -> P x.

Definition player_filters_hold (d : option Z) (f n : option string)
  (p : Player) : Prop :=
  provided d (fun x => x <= player_last_changed_date p)
  /\ provided f (fun x => first_name p = x)
  /\ provided n (fun x => last_name p = x).

Definition performance_filters_hold (d : option Z) (p : Performance) : Prop :=
  provided d (fun x => x <= performance_last_changed_date p).

Definition league_filters_hold (d : option Z) (n : option string)
  (l : League) : Prop :=
  provided d (fun x => x <= league_last_changed_date l)
  /\ provided n (fun x => league_name l = x).

Definition team_filters_hold (d : option Z) (n : option string)
  (lid : option Z) (t : Team) : Prop :=
  provided d (fun x => x <= team_last_changed_date t)
  /\ provided n (fun x => team_name t = x)
  /\ provided lid (fun x => team_league_id t = x).

(** The four list operations of main.py: the request, the response body,
    the identity, the model's filter, the filter's meaning, and the
    collection read. *)
Inductive list_op : forall A : Type, (option Z -> option Z -> request) ->
    (list A -> body) -> (A -> Z) -> (A -> bool) -> (A -> Prop) ->
    (Store -> list A) -> Prop :=
| op_players d f n :
    list_op Player (fun s l => GetPlayers s l d f n) BPlayers player_id
      (player_matches d f n) (player_filters_hold d f n) players
| op_performances d :
    list_op Performance (fun s l => GetPerformances s l d) BPerformances
      performance_id (performance_matches d) (performance_filters_hold d)
      performances
| op_leagues d n :
    list_op League (fun s l => GetLeagues s l d n) BLeagues league_id
      (league_matches d n) (league_filters_hold d n) leagues
| op_teams d n lid :
    list_op Team (fun s l => GetTeams s l d n lid) BTeams team_id
      (team_matches d n lid) (team_filters_hold d n lid) teams.

(** Players of the spec's example: only [player_id] and [last_name] are
    fixed, the other attributes are arbitrary. *)
Definition example_state (f1 f2 f3 : string) (d1 d2 d3 : Z) : state :=
  mkState (mkStore [mkPlayer 1 f1 "Smith" d1; mkPlayer 2 f2 "Jones" d2;
                    mkPlayer 3 f3 "Smith" d3] [] [] [] true) [] 0 [].

(** The list operations with only the date filter provided: the request,
    the response body, the identity, the last-changed timestamp and the
    collection read. *)
Inductive date_op : forall A : Type, Z -> (option Z -> option Z -> request) ->
    (list A -> body) -> (A -> Z) -> (A -> bool) -> (A -> Z) ->
    (Store -> list A) -> Prop :=
| dop_players x :
    date_op Player x (fun s l => GetPlayers s l (Some x) None None) BPlayers
      player_id (player_matches (Some x) None None) player_last_changed_date
      players
| dop_performances x :
    date_op Performance x (fun s l => GetPerformances s l (Some x))
      BPerformances performance_id (performance_matches (Some x))
      performance_last_changed_date performances
| dop_leagues x :
    date_op League x (fun s l => GetLeagues s l (Some x) None) BLeagues
      league_id (league_matches (Some x) None) league_last_changed_date leagues
| dop_teams x :
    date_op Team x (fun s l => GetTeams s l (Some x) None None) BTeams
      team_id (team_matches (Some x) None None) team_last_changed_date teams.

(** A computation that only reads the store through session [db]: it
    appends query calls on [db] to the log and changes nothing else. *)
Definition reads_only {A} (db : Z) (m : M A) : Prop :=
  forall st, exists qs,
    st_log (snd (m st)) = st_log st ++ map (QueryCall db) qs
    /\ open_sessions (snd (m st)) = open_sessions st
    /\ next_session (snd (m st)) = next_session st
    /\ st_store (snd (m st)) = st_store st.

(** Query-layer calls a request makes, as the code does it: none for the
    health check, three for the counts (one per collection; a store
    failure stops at the first), one for every other endpoint. *)
Definition queries_per_request (r : request) (s : Store) : nat :=
  match r with
  | GetRoot => 0
  | GetCounts => if store_up s then 3 else 1
  | _ => 1
  end.

Definition sample_state : state :=
  mkState (mkStore [mkPlayer 1 "Tom" "Smith" 10] [] [mkLeague 1 "SWC" 10]
             [mkTeam 1 "Team" 1 10] true) [] 0 [].

(** The request is answered 200, or 500 when the store fails (no 422 and
    no error raised by the endpoint itself), and the query layer was called
    with [q]. *)
Definition forwarded (r : request) (q : query) (st : state) : Prop :=
  let '(resp, st') := handle r st in
  (status resp = 200 \/ status resp = 500)
  /\ In (QueryCall (next_session st) q) (new_events st st').

(** Requests handled one after the other, each on the state the previous
    one left. *)
Fixpoint run_requests (rs : list request) (st : state) : list response * state :=
  match rs with
  | [] => ([], st)
  | r :: rs' =>
      let '(resp, st1) := handle r st in
      let '(resps, st2) := run_requests rs' st1 in
      (resp :: resps, st2)
  end.

(** Every open session is older than the next one to be opened. *)
Definition sessions_wf (st : state) : Prop :=
  forall m, In m (open_sessions st) -> m < next_session st.

(** ** Lemmas on ordering and windows *)

Section WindowFacts.
Context {A : Type} (key : A -> Z).

Lemma insert_by_perm (x : A) (l : list A) :
  Permutation (insert_by key x l) (x :: l).
Proof.
  induction l as [|y t IH]; simpl; [reflexivity|].
  destruct (key x <=? key y); [reflexivity|].
  rewrite IH. apply perm_swap.
Qed.

Lemma sort_by_perm (l : list A) : Permutation (sort_by key l) l.
Proof.
  induction l as [|x t IH]; simpl; [reflexivity|].
  rewrite insert_by_perm. now apply perm_skip.
Qed.

Lemma insert_by_sorted (x : A) (l : list A) :
  Sorted (key_le key) l -> Sorted (key_le key) (insert_by key x l).
Proof.
  induction 1 as [|y t Ht IH Hhd]; simpl.
  - repeat constructor.
  - destruct (key x <=? key y) eqn:E.
    + apply Z.leb_le in E. constructor; [constructor; assumption|].
      constructor. exact E.
    + apply Z.leb_gt in E. constructor; [exact IH|].
      destruct t as [|z t']; simpl.
      * constructor. unfold key_le. lia.
      * destruct (key x <=? key z); constructor; unfold key_le.
        -- lia.
        -- now inversion Hhd.
Qed.

Lemma sort_by_sorted (l : list A) : Sorted (key_le key) (sort_by key l).
Proof.
  induction l as [|x t IH]; simpl; [constructor|].
  now apply insert_by_sorted.
Qed.

Lemma In_firstn_In (n : nat) (l : list A) (y : A) :
  In y (firstn n l) -> In y l.
Proof.
  intro H. rewrite <- (firstn_skipn n l). apply in_or_app. now left.
Qed.

Lemma In_skipn_In (n : nat) (l : list A) (y : A) :
  In y (skipn n l) -> In y l.
Proof.
  intro H. rewrite <- (firstn_skipn n l). apply in_or_app. now right.
Qed.

Lemma window_sound (keep : A -> bool) (skip limit : Z) (xs : list A) (y : A) :
  In y (window key keep skip limit xs) -> In y xs /\ keep y = true.
Proof.
  unfold window. intro H.
  apply In_firstn_In, In_skipn_In in H.
  apply (Permutation_in _ (sort_by_perm _)) in H.
  now apply filter_In in H.
Qed.

Lemma window_nth (keep : A -> bool) (skip limit : Z) (xs : list A) (k : nat) :
  nth_error (window key keep skip limit xs) k =
  if Nat.ltb k (Z.to_nat limit)
  then nth_error (sort_by key (filter keep xs)) (Z.to_nat skip + k)
  else None.
Proof.
  unfold window. rewrite nth_error_firstn, nth_error_skipn. reflexivity.
Qed.

Lemma window_sorted (keep : A -> bool) (skip limit : Z) (xs : list A) :
  Sorted (key_le key) (window key keep skip limit xs).
Proof.
  unfold window.
  apply StronglySorted_Sorted.
  pose proof (Sorted_StronglySorted (R := (key_le key))) as HS.
  assert (Ht : Relations_1.Transitive (key_le key))
    by (unfold Relations_1.Transitive, key_le; intros; lia).
  specialize (HS Ht _ (sort_by_sorted (filter keep xs))).
  remember (sort_by key (filter keep xs)) as ms eqn:Hms; clear Hms.
  revert ms HS. generalize (Z.to_nat skip) as s, (Z.to_nat limit) as n.
  induction s as [|s IHs]; intros n ms HS.
  - simpl. revert ms HS. induction n as [|n IHn]; intros ms HS;
      [constructor|].
    destruct ms as [|m ms]; simpl; [constructor|].
    inversion HS as [|? ? Hms Hall]; subst.
    constructor; [now apply IHn|].
    apply Forall_forall. intros z Hz.
    apply In_firstn_In in Hz. now apply (proj1 (Forall_forall _ _) Hall).
  - destruct ms as [|m ms]; simpl.
    + destruct n; constructor.
    + inversion HS; subst. now apply IHs.
Qed.
Lemma filter_perm (p : A -> bool) (l l' : list A) :
  Permutation l l' -> Permutation (filter p l) (filter p l').
Proof.
  induction 1 as [|x l l' _ IH|x y l|l l' l'' _ IH1 _ IH2]; simpl.
  - constructor.
  - destruct (p x); [now apply perm_skip|exact IH].
  - destruct (p x), (p y); try constructor; reflexivity.
  - now transitivity (filter p l').
Qed.

Lemma NoDup_map_filter (p : A -> bool) (l : list A) :
  NoDup (map key l) -> NoDup (map key (filter p l)).
Proof.
  induction l as [|x t IH]; simpl; intro H; [constructor|].
  apply NoDup_cons_iff in H as [Hx Ht].
  destruct (p x); simpl; [|now apply IH].
  constructor; [|now apply IH].
  intro Hin. apply Hx. apply in_map_iff in Hin as (z & Hz & Hz').
  apply filter_In in Hz' as [Hz' _]. rewrite <- Hz. now apply in_map.
Qed.

Lemma sorted_strict (ms : list A) :
  StronglySorted (key_le key) ms -> NoDup (map key ms) -> StronglySorted (key_lt key) ms.
Proof.
  induction 1 as [|m t _ IH Hall]; simpl; intro Hnd; [constructor|].
  apply NoDup_cons_iff in Hnd as [Hm Ht].
  constructor; [now apply IH|].
  apply Forall_forall. intros z Hz.
  pose proof (proj1 (Forall_forall _ _) Hall z Hz) as Hle.
  unfold key_le, key_lt in *.
  assert (key m <> key z) by (intro E; apply Hm; rewrite E; now apply in_map).
  lia.
Qed.

Lemma nth_error_rank (ms : list A) (y : A) :
  StronglySorted (key_lt key) ms -> In y ms ->
  nth_error ms (List.length (filter (fun x => key x <? key y) ms)) = Some y.
Proof.
  induction 1 as [|m t _ IH Hall]; simpl; [easy|].
  intros [<-|Hy].
  - rewrite Z.ltb_irrefl.
    assert (Hnil : filter (fun x => key x <? key m) t = []).
    { clear IH. induction Hall as [|z t' Hz _ IHall]; simpl; [reflexivity|].
      unfold key_lt in Hz.
      replace (key z <? key m) with false by (symmetry; apply Z.ltb_ge; lia).
      exact IHall. }
    rewrite Hnil. reflexivity.
  - pose proof (proj1 (Forall_forall _ _) Hall y Hy) as Hlt.
    unfold key_lt in Hlt. apply Z.ltb_lt in Hlt. rewrite Hlt. simpl.
    now apply IH.
Qed.

Lemma firstn_add (n m : nat) (l : list A) :
  firstn (n + m) l = firstn n l ++ firstn m (skipn n l).
Proof.
  revert l; induction n as [|n IH]; intro l; [reflexivity|].
  destruct l as [|x t]; simpl.
  - now destruct m.
  - now rewrite IH.
Qed.

Lemma NoDup_app_disjoint (l1 l2 : list A) (y : A) :
  NoDup (l1 ++ l2) -> In y l1 -> ~ In y l2.
Proof.
  induction l1 as [|x t IH]; simpl; [easy|].
  intros Hnd [<-|Hy] Hy2; apply NoDup_cons_iff in Hnd as [Hx Ht].
  - apply Hx. apply in_or_app. now right.
  - exact (IH Ht Hy Hy2).
Qed.

Lemma window_complete (keep : A -> bool) (skip limit : Z) (xs : list A) (y : A) :
  0 <= skip -> NoDup (map key xs) -> In y xs -> keep y = true ->
  skip <= Z.of_nat (rank key keep xs y) < skip + limit ->
  In y (window key keep skip limit xs).
Proof.
  intros Hs Hnd Hy Hk Hr.
  set (ms := sort_by key (filter keep xs)).
  assert (Hstrict : StronglySorted (key_lt key) ms).
  { apply sorted_strict.
    - apply Sorted_StronglySorted; [unfold Relations_1.Transitive, key_le; intros; lia|].
      apply sort_by_sorted.
    - apply (Permutation_NoDup (l := map key (filter keep xs))).
      + apply Permutation_map. symmetry. apply sort_by_perm.
      + now apply NoDup_map_filter. }
  assert (Hin : In y ms).
  { apply (Permutation_in (l := filter keep xs)); [symmetry; apply sort_by_perm|].
    now apply filter_In. }
  pose proof (nth_error_rank ms y Hstrict Hin) as Hnth. unfold ms in Hnth.
  rewrite (Permutation_length (filter_perm (fun x => key x <? key y) _ _
             (sort_by_perm (filter keep xs)))) in Hnth.
  fold (rank key keep xs y) in Hnth.
  apply (nth_error_In _ (rank key keep xs y - Z.to_nat skip)).
  rewrite window_nth.
  replace (Nat.ltb (rank key keep xs y - Z.to_nat skip) (Z.to_nat limit)) with true
    by (symmetry; apply Nat.ltb_lt; lia).
  replace (Z.to_nat skip + (rank key keep xs y - Z.to_nat skip))%nat
    with (rank key keep xs y) by lia.
  exact Hnth.
Qed.

Lemma window_length (keep : A -> bool) (skip limit : Z) (xs : list A) :
  0 <= skip -> 0 <= limit ->
  Z.of_nat (List.length (window key keep skip limit xs)) =
  Z.min limit (Z.max 0 (Z.of_nat (List.length (filter keep xs)) - skip)).
Proof.
  intros Hs Hl. unfold window.
  rewrite length_firstn, length_skipn,
    (Permutation_length (sort_by_perm _)).
  destruct (Nat.min_spec (Z.to_nat limit)
              (List.length (filter keep xs) - Z.to_nat skip)) as [[H E]|[H E]];
    rewrite E; lia.
Qed.

Lemma window_pages (keep : A -> bool) (n : Z) (xs : list A) :
  0 <= n ->
  window key keep 0 n xs ++ window key keep n n xs =
  firstn (Z.to_nat (2 * n)) (sort_by key (filter keep xs)).
Proof.
  intro Hn. unfold window. simpl skipn.
  replace (Z.to_nat (2 * n)) with (Z.to_nat n + Z.to_nat n)%nat by lia.
  symmetry. apply firstn_add.
Qed.

Lemma window_pages_disjoint (keep : A -> bool) (n : Z) (xs : list A) (y : A) :
  0 <= n -> NoDup (map key xs) ->
  In y (window key keep 0 n xs) -> ~ In y (window key keep n n xs).
Proof.
  intros Hn Hnd. apply NoDup_app_disjoint.
  rewrite window_pages by exact Hn.
  assert (Hms : NoDup (sort_by key (filter keep xs))).
  { apply (Permutation_NoDup (l := filter keep xs)); [symmetry; apply sort_by_perm|].
    apply NoDup_filter. now apply (NoDup_map_inv key). }
  rewrite <- (firstn_skipn (Z.to_nat (2 * n))) in Hms.
  now apply NoDup_app_remove_r in Hms.
Qed.
End WindowFacts.

Lemma provided_None {B : Type} (P : B -> Prop) : provided None P <-> True.
Proof. split; [easy|]. intros _ x H. discriminate. Qed.

Lemma provided_Some {B : Type} (x : B) (P : B -> Prop) :
  provided (Some x) P <-> P x.
Proof. split; [intro H; now apply H|]. intros H y E. now injection E as <-. Qed.

Ltac solve_matches :=
  cbn [opt_filter];
  rewrite ?provided_Some, ?provided_None;
  rewrite ?andb_true_iff, ?Z.leb_le, ?String.eqb_eq, ?Z.eqb_eq;
  intuition auto.

Lemma list_op_matches A req mk key keep holds rows (y : A) :
  list_op A req mk key keep holds rows -> keep y = true <-> holds y.
Proof.
  destruct 1.
  - unfold player_matches, player_filters_hold. destruct d, f, n; solve_matches.
  - unfold performance_matches, performance_filters_hold. destruct d; solve_matches.
  - unfold league_matches, league_filters_hold. destruct d, n; solve_matches.
  - unfold team_matches, team_filters_hold. destruct d, n, lid; solve_matches.
Qed.

Lemma list_op_response A req mk key keep holds rows (st : state) (s l : Z) :
  list_op A req mk key keep holds rows ->
  store_up (st_store st) = true ->
  fst (handle (req (Some s) (Some l)) st) =
    mkResponse 200 (mk (window key keep s l (rows (st_store st))))
  /\ st_store (snd (handle (req (Some s) (Some l)) st)) = st_store st.
Proof.
  intros Hop Hup.
  destruct Hop;
    unfold handle, endpoint, read_players, read_performances, read_leagues,
      read_teams, crud.get_players, crud.get_performances, crud.get_leagues,
      crud.get_teams, crud.read_store, bind, ret;
    cbn; rewrite Hup; cbn; split; reflexivity.
Qed.

(** ** Claims *)

(** C1: for every list operation and every combination of filters, the
    response lists only stored records satisfying every provided filter
    (the model's filter is exactly the conjunction of the provided ones),
    and lists every matching record whose position in identity-ascending
    order falls in [[skip, skip+limit)]; on the spec's example, filtering
    players by last name "Smith" returns the records with ids 1 and 3, in
    that order. *)
Theorem list_ops_filter_window A req mk key keep holds rows (st : state)
  (s l : Z) :
  list_op A req mk key keep holds rows ->
  store_up (st_store st) = true -> 0 <= s -> 0 <= l ->
  NoDup (map key (rows (st_store st))) ->
  (exists ys,
     fst (handle (req (Some s) (Some l)) st) = mkResponse 200 (mk ys)
     /\ (forall y, keep y = true <-> holds y)
     /\ (forall y, In y ys -> In y (rows (st_store st)) /\ holds y)
     /\ (forall y, In y (rows (st_store st)) -> holds y ->
           s <= Z.of_nat (rank key keep (rows (st_store st)) y) < s + l ->
           In y ys))
  /\ (forall f1 f2 f3 d1 d2 d3,
        exists ps,
          fst (handle (GetPlayers None None None None (Some "Smith"%string))
                 (example_state f1 f2 f3 d1 d2 d3))
          = mkResponse 200 (BPlayers ps)
          /\ map player_id ps = [1; 3]).
Proof.
  intros Hop Hup Hs Hl Hnd. split.
  - exists (window key keep s l (rows (st_store st))).
    split; [exact (proj1 (list_op_response _ _ _ _ _ _ _ st s l Hop Hup))|].
    split; [intro y; exact (list_op_matches _ _ _ _ _ _ _ y Hop)|].
    split.
    + intros y Hy. apply window_sound in Hy as [Hy Hk]. split; [exact Hy|].
      now apply (list_op_matches _ _ _ _ _ _ _ y Hop).
    + intros y Hy Hh Hr. apply window_complete; try assumption.
      now apply (list_op_matches _ _ _ _ _ _ _ y Hop).
  - intros f1 f2 f3 d1 d2 d3. eexists. split; reflexivity.
Qed.

(** C2: for every list operation and non-negative [skip] and [limit], the
    response is a 200 with a list (never null) whose length is
    [min(limit, max(0, total_matching - skip))]; when nothing matches the
    list is empty. *)
Theorem list_ops_length A req mk key keep holds rows (st : state) (s l : Z) :
  list_op A req mk key keep holds rows ->
  store_up (st_store st) = true -> 0 <= s -> 0 <= l ->
  exists ys,
    fst (handle (req (Some s) (Some l)) st) = mkResponse 200 (mk ys)
    /\ Z.of_nat (List.length ys)
       = Z.min l (Z.max 0 (Z.of_nat (List.length (filter keep (rows (st_store st)))) - s))
    /\ (filter keep (rows (st_store st)) = [] -> ys = []).
Proof.
  intros Hop Hup Hs Hl.
  exists (window key keep s l (rows (st_store st))).
  split; [exact (proj1 (list_op_response _ _ _ _ _ _ _ st s l Hop Hup))|].
  split; [now apply window_length|].
  intro E. unfold window. rewrite E. simpl. now destruct (Z.to_nat s), (Z.to_nat l).
Qed.

(** C3: for every list operation, the matching records are put in
    identity-ascending order (a sorted permutation of them) before [skip]
    and [limit] apply; two consecutive calls with [skip=0,limit=N] and
    [skip=N,limit=N] on the same data return disjoint pages whose
    concatenation is the first [2N] matching records in that order. *)
Theorem list_ops_pagination A req mk key keep holds rows (st : state) (n : Z) :
  list_op A req mk key keep holds rows ->
  store_up (st_store st) = true -> 0 <= n ->
  NoDup (map key (rows (st_store st))) ->
  let ms := sort_by key (filter keep (rows (st_store st))) in
  Sorted (key_le key) ms /\ Permutation ms (filter keep (rows (st_store st)))
  /\ exists p1 p2,
       fst (handle (req (Some 0) (Some n)) st) = mkResponse 200 (mk p1)
       /\ fst (handle (req (Some n) (Some n))
                (snd (handle (req (Some 0) (Some n)) st)))
          = mkResponse 200 (mk p2)
       /\ p1 ++ p2 = firstn (Z.to_nat (2 * n)) ms
       /\ (forall y, In y p1 -> ~ In y p2).
Proof.
  intros Hop Hup Hn Hnd ms.
  split; [apply sort_by_sorted|]. split; [apply sort_by_perm|].
  destruct (list_op_response _ _ _ _ _ _ _ st 0 n Hop Hup) as [R1 S1].
  assert (Hup1 : store_up (st_store (snd (handle (req (Some 0) (Some n)) st))) = true)
    by now rewrite S1.
  destruct (list_op_response _ _ _ _ _ _ _ _ n n Hop Hup1) as [R2 _].
  rewrite S1 in R2.
  exists (window key keep 0 n (rows (st_store st))),
         (window key keep n n (rows (st_store st))).
  split; [exact R1|]. split; [exact R2|].
  split; [now apply window_pages|].
  intros y Hy. now apply window_pages_disjoint.
Qed.

Lemma window_full {A} (key : A -> Z) (keep : A -> bool) (l : Z) (xs : list A)
  (y : A) :
  Z.of_nat (List.length xs) <= l ->
  In y (window key keep 0 l xs) <-> In y xs /\ keep y = true.
Proof.
  intro Hl. unfold window. simpl skipn.
  rewrite firstn_all2.
  - rewrite <- filter_In. split; apply Permutation_in;
      [apply sort_by_perm|symmetry; apply sort_by_perm].
  - rewrite (Permutation_length (sort_by_perm _ _)).
    pose proof (filter_length_le keep xs). lia.
Qed.

Lemma read_player_response (st : state) (i : Z) :
  store_up (st_store st) = true ->
  fst (handle (GetPlayer i) st) =
  match find (fun p => player_id p =? i) (players (st_store st)) with
  | None => mkResponse 404 (BDetail "Player not found")
  | Some p => mkResponse 200 (BPlayer p)
  end.
Proof.
  intro Hup. unfold handle, endpoint, read_player, crud.get_player,
    crud.read_store, bind, ret, raise; cbn. rewrite Hup; cbn.
  now destruct (find _ _).
Qed.

Lemma read_league_response (st : state) (i : Z) :
  store_up (st_store st) = true ->
  fst (handle (GetLeague i) st) =
  match find (fun l => league_id l =? i) (leagues (st_store st)) with
  | None => mkResponse 404 (BDetail "League not found")
  | Some l => mkResponse 200 (BLeague l)
  end.
Proof.
  intro Hup. unfold handle, endpoint, read_league, crud.get_league,
    crud.read_store, bind, ret, raise; cbn. rewrite Hup; cbn.
  now destruct (find _ _).
Qed.

(** C4: a player (league) lookup answers 200 with a record whose id is the
    requested one when the store holds one with that id, and 404 with
    detail "Player not found" ("League not found") otherwise. *)
Theorem single_entity_lookup (st : state) (i : Z) :
  store_up (st_store st) = true ->
  ((exists p, In p (players (st_store st)) /\ player_id p = i) ->
     exists p, fst (handle (GetPlayer i) st) = mkResponse 200 (BPlayer p)
               /\ player_id p = i /\ In p (players (st_store st)))
  /\ (~ (exists p, In p (players (st_store st)) /\ player_id p = i) ->
      fst (handle (GetPlayer i) st) = mkResponse 404 (BDetail "Player not found"))
  /\ ((exists lg, In lg (leagues (st_store st)) /\ league_id lg = i) ->
     exists lg, fst (handle (GetLeague i) st) = mkResponse 200 (BLeague lg)
                /\ league_id lg = i /\ In lg (leagues (st_store st)))
  /\ (~ (exists lg, In lg (leagues (st_store st)) /\ league_id lg = i) ->
      fst (handle (GetLeague i) st) = mkResponse 404 (BDetail "League not found")).
Proof.
  intro Hup.
  rewrite (read_player_response st i Hup), (read_league_response st i Hup).
  repeat split.
  - intros (p & Hp & Hi).
    destruct (find _ _) as [q|] eqn:E.
    + apply find_some in E as [Hq Hqi]. apply Z.eqb_eq in Hqi. now exists q.
    + pose proof (find_none _ _ E p Hp) as F. simpl in F.
      apply Z.eqb_neq in F. contradiction.
  - intro Hno. destruct (find _ _) as [q|] eqn:E; [|reflexivity].
    apply find_some in E as [Hq Hqi]. apply Z.eqb_eq in Hqi.
    exfalso. apply Hno. now exists q.
  - intros (lg & Hl & Hi).
    destruct (find _ (leagues _)) as [q|] eqn:E.
    + apply find_some in E as [Hq Hqi]. apply Z.eqb_eq in Hqi. now exists q.
    + pose proof (find_none _ _ E lg Hl) as F. simpl in F.
      apply Z.eqb_neq in F. contradiction.
  - intro Hno. destruct (find _ (leagues _)) as [q|] eqn:E; [|reflexivity].
    apply find_some in E as [Hq Hqi]. apply Z.eqb_eq in Hqi.
    exfalso. apply Hno. now exists q.
Qed.

Lemma date_op_list_op A x req mk key keep changed rows :
  date_op A x req mk key keep changed rows ->
  (exists holds, list_op A req mk key keep holds rows)
  /\ forall y, keep y = (x <=? changed y).
Proof.
  destruct 1;
    (split; [eexists; first [apply op_players | apply op_performances
                            | apply op_leagues | apply op_teams]|]); intro y;
    unfold player_matches, performance_matches, league_matches, team_matches;
    cbn [opt_filter]; rewrite ?andb_true_r; reflexivity.
Qed.

(** C5: with [minimum_last_changed_date = x] and a [limit] that does not cut
    the result, a stored record is returned exactly when its last-changed
    timestamp is [>= x]: a record changed on day [x] is included, one
    changed on day [x - 1] is not. *)
Theorem date_filter_inclusive A x req mk key keep changed rows (st : state)
  (l : Z) :
  date_op A x req mk key keep changed rows ->
  store_up (st_store st) = true ->
  Z.of_nat (List.length (rows (st_store st))) <= l ->
  exists ys,
    fst (handle (req (Some 0) (Some l)) st) = mkResponse 200 (mk ys)
    /\ forall y, In y (rows (st_store st)) ->
         (In y ys <-> x <= changed y)
         /\ (changed y = x -> In y ys)
         /\ (changed y = x - 1 -> ~ In y ys).
Proof.
  intros Hop Hup Hl.
  destruct (date_op_list_op _ _ _ _ _ _ _ _ Hop) as [[holds Hlop] Hkeep].
  exists (window key keep 0 l (rows (st_store st))).
  split; [exact (proj1 (list_op_response _ _ _ _ _ _ _ st 0 l Hlop Hup))|].
  intros y Hy.
  assert (Hiff : In y (window key keep 0 l (rows (st_store st))) <-> x <= changed y).
  { rewrite (window_full key keep l _ y Hl), Hkeep, Z.leb_le. tauto. }
  rewrite Hiff. repeat split; intros; lia.
Qed.

(** ** Effects of a request *)

Lemma ro_ret {A} db (a : A) : reads_only db (ret a).
Proof. intro st. exists []. simpl. now rewrite app_nil_r. Qed.

Lemma ro_raise {A} db e : reads_only db (@raise A e).
Proof. intro st. exists []. simpl. now rewrite app_nil_r. Qed.

Lemma ro_read_store {A} db q (k : Store -> A) : reads_only db (crud.read_store db q k).
Proof.
  intro st. exists [q]. unfold crud.read_store.
  destruct (store_up (st_store st)); simpl; auto.
Qed.

Lemma ro_bind {A B} db (m : M A) (k : A -> M B) :
  reads_only db m -> (forall a, reads_only db (k a)) -> reads_only db (bind m k).
Proof.
  intros Hm Hk st. unfold bind.
  destruct (Hm st) as (qs1 & L1 & O1 & N1 & S1).
  destruct (m st) as [[a|e] st1]; simpl in *.
  - destruct (Hk a st1) as (qs2 & L2 & O2 & N2 & S2).
    exists (qs1 ++ qs2). rewrite L2, L1, map_app, app_assoc.
    repeat split; congruence.
  - now exists qs1.
Qed.

Lemma ro_validate db p v : reads_only db (validate p v).
Proof.
  unfold validate. destruct v as [z|]; [|apply ro_ret].
  destruct (qp_ge p) as [g|]; [|apply ro_ret].
  destruct (z <? g); [apply ro_raise|apply ro_ret].
Qed.

Create HintDb reads.
#[local] Hint Resolve ro_ret ro_raise ro_read_store ro_validate : reads.

Ltac reads_only_tac :=
  repeat (apply ro_bind; [eauto with reads|intro]);
  try match goal with [ o : option _ |- _ ] => destruct o end;
  eauto with reads.

Lemma endpoint_get_db (r : request) :
  r <> GetRoot ->
  exists body, endpoint r = get_db body /\ forall db, reads_only db (body db).
Proof.
  destruct r; intro Hr; [congruence| | | | | | |];
    eexists; (split; [reflexivity|]); intro db;
    unfold read_players, read_player, read_performances, read_league,
      read_leagues, read_teams, get_count, crud.get_players, crud.get_player,
      crud.get_performances, crud.get_league, crud.get_leagues, crud.get_teams,
      crud.get_league_count, crud.get_team_count, crud.get_player_count;
    reads_only_tac.
Qed.

Lemma get_db_session {A} (body : Z -> M A) (st : state) :
  (forall db, reads_only db (body db)) ->
  let n := next_session st in
  exists qs,
    st_log (snd (get_db body st))
      = st_log st ++ Acquire n :: map (QueryCall n) qs ++ [Release n]
    /\ open_sessions (snd (get_db body st))
       = remove Z.eq_dec n (n :: open_sessions st)
    /\ st_store (snd (get_db body st)) = st_store st.
Proof.
  intros Hb n. subst n. unfold get_db, SessionLocal. cbn beta iota zeta.
  match goal with
  | [ |- context [body ?db ?st1] ] =>
      destruct (Hb db st1) as (qs & L & O & N & S);
      destruct (body db st1) as [o st2]
  end.
  simpl in *. exists qs.
  rewrite L, <- !app_assoc. simpl. repeat split; [rewrite O; reflexivity|exact S].
Qed.

Lemma handle_snd (r : request) (st : state) :
  snd (handle r st) = snd (endpoint r st).
Proof. unfold handle. now destruct (endpoint r st). Qed.

Lemma new_events_app (st st' : state) (E : list event) :
  st_log st' = st_log st ++ E -> new_events st st' = E.
Proof.
  intro H. unfold new_events. rewrite H, skipn_app, skipn_all, Nat.sub_diag.
  reflexivity.
Qed.

(** C6: every request that uses the store opens exactly one session [n]
    (a fresh one) on entry, runs all its queries on [n], and closes [n]
    last, whatever its outcome (a response, the not-found exception, a
    store failure); afterwards [n] is no longer open and the other open
    sessions are as before. *)
Theorem request_session_released (r : request) (st : state) :
  r <> GetRoot ->
  let st' := snd (handle r st) in
  let n := next_session st in
  exists qs,
    new_events st st' = Acquire n :: map (QueryCall n) qs ++ [Release n]
    /\ ~ In n (open_sessions st')
    /\ (forall m, m <> n -> (In m (open_sessions st') <-> In m (open_sessions st))).
Proof.
  intros Hr st' n. subst st' n. rewrite handle_snd.
  destruct (endpoint_get_db r Hr) as (body & E & Hb). rewrite E.
  destruct (get_db_session body st Hb) as (qs & L & O & _).
  exists qs. split; [now apply new_events_app|]. rewrite O.
  split; [apply remove_In|].
  intros m Hm. split.
  - intro Hin. apply in_remove in Hin as [Hin _].
    destruct Hin as [<-|Hin]; [congruence|exact Hin].
  - intro Hin. apply in_in_remove; [exact Hm|]. now right.
Qed.

(** C7: with the store answering, [/v0/counts/] answers 200 with the
    unfiltered sizes of the league, team and player collections, all
    non-negative. *)
Theorem counts_are_cardinalities (st : state) :
  store_up (st_store st) = true ->
  exists c,
    fst (handle GetCounts st) = mkResponse 200 (BCounts c)
    /\ league_count c = Z.of_nat (List.length (leagues (st_store st)))
    /\ team_count c = Z.of_nat (List.length (teams (st_store st)))
    /\ player_count c = Z.of_nat (List.length (players (st_store st)))
    /\ 0 <= league_count c /\ 0 <= team_count c /\ 0 <= player_count c.
Proof.
  intro Hup. unfold handle, endpoint, get_count, crud.get_league_count,
    crud.get_team_count, crud.get_player_count, crud.read_store, bind, ret,
    log_event.
  repeat (cbn; rewrite Hup). cbn. eexists. split; [reflexivity|]. cbn.
  repeat split; lia.
Qed.

(** C8, counterexample: the counts endpoint makes three query-layer calls
    in one request, not one. *)
Lemma get_count_three_queries :
  query_count sample_state (snd (handle GetCounts sample_state)) = 3%nat
  /\ query_count sample_state (snd (handle GetCounts sample_state)) <> 1%nat.
Proof. split; vm_compute; [reflexivity|discriminate]. Qed.

(** C8, as the code does it: no request changes the stored data; a list or
    single-entity request makes exactly one query-layer call, the counts
    request three (one per collection, stopping at the first store
    failure) and the health check none. *)
Theorem query_calls_per_request (r : request) (st : state) :
  st_store (snd (handle r st)) = st_store st
  /\ query_count st (snd (handle r st)) = queries_per_request r (st_store st).
Proof.
  split.
  - rewrite handle_snd. destruct r as [| | | | | | |]; [reflexivity| | | | | | |];
      match goal with
      | [ |- st_store (snd (endpoint ?r st)) = _ ] =>
          destruct (endpoint_get_db r ltac:(discriminate)) as (body & E & Hb)
      end;
      rewrite E; destruct (get_db_session body st Hb) as (qs & _ & _ & S);
      exact S.
  - unfold query_count.
    destruct r;
      [unfold handle; cbn [endpoint root ret snd];
       rewrite (new_events_app st st []) by (now rewrite app_nil_r);
       reflexivity| | | | | | |];
      repeat match goal with [ o : option Z |- _ ] => destruct o end;
      unfold handle, endpoint, read_players, read_player, read_performances,
        read_league, read_leagues, read_teams, get_count, crud.get_players,
        crud.get_player, crud.get_performances, crud.get_league,
        crud.get_leagues, crud.get_teams, crud.get_league_count,
        crud.get_team_count, crud.get_player_count, crud.read_store,
        validate, bind, ret, raise, get_db, SessionLocal, close, log_event;
      cbn; destruct (store_up (st_store st)) eqn:Hup;
      repeat (cbn; rewrite Hup);
      try destruct (find _ _);
      cbn; (erewrite new_events_app; [|rewrite <- !app_assoc; reflexivity]);
      reflexivity.
Qed.

(** C9: the health check answers the same constant payload on every call
    and leaves the state untouched: no session is opened and no query is
    made. *)
Theorem root_constant (st : state) :
  handle GetRoot st
  = (mkResponse 200 (BMessage "message" "API health check successful"), st).
Proof. reflexivity. Qed.

Ltac run_list_request st :=
  unfold forwarded, handle, endpoint, read_players, read_performances,
    read_leagues, read_teams, crud.get_players, crud.get_performances,
    crud.get_leagues, crud.get_teams, crud.read_store, validate, bind, ret,
    get_db, SessionLocal, close, log_event;
  cbn; destruct (store_up (st_store st));
  cbn; (erewrite new_events_app; [|rewrite <- !app_assoc; reflexivity]);
  simpl; auto.

(** C10: a list request with any integers for [skip] and [limit], negative
    ones included, passes validation (the parameters declare no bound), is
    answered 200 or, when the store fails, 500 (never 422, and the endpoint
    raises nothing of its own), and the values reach the query layer
    unchanged. *)
Theorem paging_values_forwarded (s l : Z) (st : state) (d : option Z)
  (f n : option string) (lid : option Z) :
  validate skip_param (Some s) st = (Ret s, st)
  /\ validate limit_param (Some l) st = (Ret l, st)
  /\ forwarded (GetPlayers (Some s) (Some l) d f n) (QGetPlayers s l d f n) st
  /\ forwarded (GetPerformances (Some s) (Some l) d) (QGetPerformances s l d) st
  /\ forwarded (GetLeagues (Some s) (Some l) d n) (QGetLeagues s l d n) st
  /\ forwarded (GetTeams (Some s) (Some l) d n lid) (QGetTeams s l d n lid) st.
Proof.
  split; [reflexivity|]. split; [reflexivity|].
  repeat split; run_list_request st.
Qed.

(** ** Witnesses: the hypotheses of the claims hold on concrete inputs *)

Lemma list_ops_filter_window_witness :
  store_up (st_store (example_state "Ann" "Bob" "Cy" 5 6 7)) = true
  /\ NoDup (map player_id (players (st_store (example_state "Ann" "Bob" "Cy" 5 6 7))))
  /\ exists ys,
       fst (handle (GetPlayers (Some 1) (Some 1) None None (Some "Smith"%string))
              (example_state "Ann" "Bob" "Cy" 5 6 7))
       = mkResponse 200 (BPlayers ys)
       /\ (forall y, In y ys ->
             In y (players (st_store (example_state "Ann" "Bob" "Cy" 5 6 7)))
             /\ player_filters_hold None None (Some "Smith"%string) y).
Proof.
  split; [reflexivity|].
  assert (Hnd : NoDup (map player_id
                  (players (st_store (example_state "Ann" "Bob" "Cy" 5 6 7)))))
    by (simpl; repeat constructor; simpl; lia).
  split; [exact Hnd|].
  destruct (list_ops_filter_window _ _ _ _ _ _ _
              (example_state "Ann" "Bob" "Cy" 5 6 7) 1 1
              (op_players None None (Some "Smith"%string))
              eq_refl ltac:(lia) ltac:(lia) Hnd) as [(ys & H1 & _ & H3 & _) _].
  exists ys. split; [exact H1|exact H3].
Defined.

Lemma list_ops_length_witness :
  store_up (st_store sample_state) = true
  /\ exists ys,
       fst (handle (GetTeams (Some 0) (Some 5) None None (Some 1)) sample_state)
       = mkResponse 200 (BTeams ys)
       /\ Z.of_nat (List.length ys) = 1.
Proof.
  split; [reflexivity|].
  destruct (list_ops_length _ _ _ _ _ _ _ sample_state 0 5
              (op_teams None None (Some 1)) eq_refl ltac:(lia) ltac:(lia))
    as (ys & H1 & H2 & _).
  exists ys. split; [exact H1|]. rewrite H2. reflexivity.
Defined.

Lemma list_ops_pagination_witness :
  store_up (st_store (example_state "Ann" "Bob" "Cy" 5 6 7)) = true
  /\ exists p1 p2,
       fst (handle (GetPlayers (Some 0) (Some 1) None None None)
              (example_state "Ann" "Bob" "Cy" 5 6 7)) = mkResponse 200 (BPlayers p1)
       /\ p1 ++ p2 = firstn 2 (sort_by player_id
                        (filter (player_matches None None None)
                           (players (st_store (example_state "Ann" "Bob" "Cy" 5 6 7))))).
Proof.
  split; [reflexivity|].
  assert (Hnd : NoDup (map player_id
                  (players (st_store (example_state "Ann" "Bob" "Cy" 5 6 7)))))
    by (simpl; repeat constructor; simpl; lia).
  destruct (list_ops_pagination _ _ _ _ _ _ _
              (example_state "Ann" "Bob" "Cy" 5 6 7) 1
              (op_players None None None) eq_refl ltac:(lia) Hnd)
    as (_ & _ & p1 & p2 & H1 & _ & H3 & _).
  exists p1, p2. split; [exact H1|exact H3].
Defined.

Lemma single_entity_lookup_witness :
  store_up (st_store sample_state) = true
  /\ fst (handle (GetLeague 2) sample_state)
     = mkResponse 404 (BDetail "League not found").
Proof.
  split; [reflexivity|].
  apply (single_entity_lookup sample_state 2 eq_refl).
  intros (lg & Hin & Hid). simpl in Hin.
  destruct Hin as [<-|[]]. simpl in Hid. lia.
Defined.

Lemma date_filter_inclusive_witness :
  store_up (st_store (example_state "Ann" "Bob" "Cy" 5 6 7)) = true
  /\ exists ys,
       fst (handle (GetPlayers (Some 0) (Some 3) (Some 6) None None)
              (example_state "Ann" "Bob" "Cy" 5 6 7)) = mkResponse 200 (BPlayers ys)
       /\ In (mkPlayer 2 "Bob" "Jones" 6) ys
       /\ ~ In (mkPlayer 1 "Ann" "Smith" 5) ys.
Proof.
  split; [reflexivity|].
  destruct (date_filter_inclusive _ _ _ _ _ _ _ _
              (example_state "Ann" "Bob" "Cy" 5 6 7) 3 (dop_players 6)
              eq_refl ltac:(simpl; lia)) as (ys & H1 & H2).
  exists ys. split; [exact H1|]. split.
  - apply (proj1 (proj2 (H2 (mkPlayer 2 "Bob" "Jones" 6) ltac:(simpl; auto)))).
    reflexivity.
  - apply (proj2 (proj2 (H2 (mkPlayer 1 "Ann" "Smith" 5) ltac:(simpl; auto)))).
    reflexivity.
Defined.

Lemma request_session_released_witness :
  GetPlayer 7 <> GetRoot
  /\ exists qs,
       new_events sample_state (snd (handle (GetPlayer 7) sample_state))
       = Acquire 0 :: map (QueryCall 0) qs ++ [Release 0].
Proof.
  split; [discriminate|].
  destruct (request_session_released (GetPlayer 7) sample_state
              ltac:(discriminate)) as (qs & H1 & _).
  exists qs. exact H1.
Defined.

Lemma counts_are_cardinalities_witness :
  store_up (st_store sample_state) = true
  /\ exists c, fst (handle GetCounts sample_state) = mkResponse 200 (BCounts c)
               /\ league_count c = 1 /\ team_count c = 1 /\ player_count c = 1.
Proof.
  split; [reflexivity|].
  destruct (counts_are_cardinalities sample_state eq_refl)
    as (c & H1 & H2 & H3 & H4 & _).
  exists c. split; [exact H1|]. rewrite H2, H3, H4. repeat split.
Defined.


(** ** Further properties of main.py *)

Ltac unfold_request :=
  unfold handle, endpoint, read_players, read_player, read_performances,
    read_league, read_leagues, read_teams, get_count, crud.get_players,
    crud.get_player, crud.get_performances, crud.get_league,
    crud.get_leagues, crud.get_teams, crud.get_league_count,
    crud.get_team_count, crud.get_player_count, crud.read_store,
    validate, bind, ret, raise, get_db, SessionLocal, close, log_event, root.

(** Omitting [skip] and [limit] on a list request is the same as passing
    [skip=0] and [limit=100]: same response, same effects. *)
Theorem list_defaults_skip0_limit100 (st : state) (d : option Z)
  (f n : option string) (lid : option Z) :
  handle (GetPlayers None None d f n) st
    = handle (GetPlayers (Some 0) (Some 100) d f n) st
  /\ handle (GetPerformances None None d) st
    = handle (GetPerformances (Some 0) (Some 100) d) st
  /\ handle (GetLeagues None None d n) st
    = handle (GetLeagues (Some 0) (Some 100) d n) st
  /\ handle (GetTeams None None d n lid) st
    = handle (GetTeams (Some 0) (Some 100) d n lid) st.
Proof. repeat split. Qed.

Ltac run_all st :=
  repeat match goal with [ o : option Z |- _ ] => destruct o end;
  unfold_request; cbn;
  destruct (store_up (st_store st)) eqn:Hstore;
  repeat (cbn; rewrite Hstore);
  try destruct (find _ _); cbn.

(** When the store does not answer, every request other than the health
    check is answered 500: the failure is not turned into a 404 or any
    other answer. *)
Theorem store_failure_is_500 (r : request) (st : state) :
  r <> GetRoot -> store_up (st_store st) = false ->
  fst (handle r st) = mkResponse 500 BServerError.
Proof.
  intros Hr Hdown.
  destruct r; [congruence| | | | | | |]; run_all st; congruence.
Qed.

(** Every response is a 200, a 404 or a 500 (never a 422: no parameter
    has a constraint to violate); a 404 only answers a player or league
    lookup; a 500 only comes from a store that does not answer. *)
Theorem response_statuses (r : request) (st : state) :
  let resp := fst (handle r st) in
  (status resp = 200 \/ status resp = 404 \/ status resp = 500)
  /\ (status resp = 404 -> exists i, r = GetPlayer i \/ r = GetLeague i)
  /\ (status resp = 500 -> store_up (st_store st) = false).
Proof.
  intro resp; subst resp.
  destruct r; [cbn; split; [lia|split; intro H; discriminate]| | | | | | |];
    run_all st;
    (split; [lia|split]); intro H;
    first [ discriminate | assumption
          | eexists; first [left; reflexivity | right; reflexivity] ].
Qed.

Lemma handle_store (r : request) (st : state) :
  st_store (snd (handle r st)) = st_store st.
Proof.
  rewrite handle_snd. destruct r as [| | | | | | |]; [reflexivity| | | | | | |];
    match goal with
    | [ |- st_store (snd (endpoint ?r st)) = _ ] =>
        destruct (endpoint_get_db r ltac:(discriminate)) as (body & E & Hb)
    end;
    rewrite E; destruct (get_db_session body st Hb) as (qs & _ & _ & S);
    exact S.
Qed.

Lemma handle_response_store (r : request) (st st' : state) :
  st_store st = st_store st' -> fst (handle r st) = fst (handle r st').
Proof.
  intro H.
  destruct r; [reflexivity| | | | | | |];
    repeat match goal with [ o : option Z |- _ ] => destruct o end;
    unfold_request; cbn; rewrite H;
    destruct (store_up (st_store st')) eqn:Hstore;
    repeat (cbn; rewrite Hstore);
    try destruct (find _ _); reflexivity.
Qed.

Lemma run_requests_store (rs : list request) (st : state) :
  st_store (snd (run_requests rs st)) = st_store st.
Proof.
  revert st; induction rs as [|r rs IH]; intro st; [reflexivity|].
  simpl. destruct (handle r st) as [resp st1] eqn:E.
  destruct (run_requests rs st1) as [resps st2] eqn:E2. simpl.
  rewrite <- (handle_store r st), E. simpl.
  specialize (IH st1). rewrite E2 in IH. exact IH.
Qed.

(** A request is answered the same whatever requests were handled before
    it: no endpoint keeps state between requests, and none changes the
    store. *)
Theorem response_independent_of_history (rs : list request) (r : request)
  (st : state) :
  fst (handle r (snd (run_requests rs st))) = fst (handle r st).
Proof. apply handle_response_store, run_requests_store. Qed.

Lemma get_db_next {A} (body : Z -> M A) (st : state) :
  (forall db, reads_only db (body db)) ->
  next_session (snd (get_db body st)) = next_session st + 1.
Proof.
  intro Hb. unfold get_db, SessionLocal. cbn beta iota zeta.
  match goal with
  | [ |- context [body ?db ?st1] ] =>
      destruct (Hb db st1) as (qs & L & O & N & S);
      destruct (body db st1) as [o st2]
  end.
  simpl in *. exact N.
Qed.

Lemma handle_sessions (r : request) (st : state) :
  sessions_wf st ->
  open_sessions (snd (handle r st)) = open_sessions st
  /\ next_session st <= next_session (snd (handle r st)).
Proof.
  intro Hwf. rewrite handle_snd.
  destruct r as [| | | | | | |]; [cbn; split; [reflexivity|lia]| | | | | | |];
    match goal with
    | [ |- context [endpoint ?r st] ] =>
        destruct (endpoint_get_db r ltac:(discriminate)) as (body & E & Hb)
    end;
    rewrite E; destruct (get_db_session body st Hb) as (qs & _ & O & _);
    rewrite O, (get_db_next body st Hb);
    (split; [|lia]); simpl;
    (destruct (Z.eq_dec (next_session st) (next_session st)); [|congruence]);
    apply notin_remove; intro Hin; specialize (Hwf _ Hin); lia.
Qed.

(** Starting from well-formed sessions, any sequence of requests leaves
    exactly the sessions that were open before it open: every request
    closes what it opened. *)
Theorem run_requests_sessions (rs : list request) (st : state) :
  sessions_wf st ->
  open_sessions (snd (run_requests rs st)) = open_sessions st
  /\ sessions_wf (snd (run_requests rs st)).
Proof.
  revert st; induction rs as [|r rs IH]; intros st Hwf; [split; [reflexivity|exact Hwf]|].
  simpl. destruct (handle_sessions r st Hwf) as [O N].
  destruct (handle r st) as [resp st1] eqn:E. simpl in O, N.
  assert (Hwf1 : sessions_wf st1).
  { intros m Hm. rewrite O in Hm. specialize (Hwf m Hm). lia. }
  destruct (IH st1 Hwf1) as [O1 W1].
  destruct (run_requests rs st1) as [resps st2]. simpl in *.
  split; [congruence|exact W1].
Qed.

Lemma run_requests_sessions_witness :
  sessions_wf sample_state
  /\ open_sessions (snd (run_requests [GetPlayer 7; GetCounts; GetRoot]
                           sample_state)) = [].
Proof.
  assert (Hwf : sessions_wf sample_state) by (intros m []).
  split; [exact Hwf|].
  exact (proj1 (run_requests_sessions [GetPlayer 7; GetCounts; GetRoot]
                  sample_state Hwf)).
Defined.

(** The counts endpoint reads the league, team and player counts in that
    order on one session, and stops after the first read when the store
    does not answer. *)
Theorem get_count_query_order (st : state) :
  let n := next_session st in
  new_events st (snd (handle GetCounts st))
  = if store_up (st_store st)
    then [Acquire n; QueryCall n QLeagueCount; QueryCall n QTeamCount;
          QueryCall n QPlayerCount; Release n]
    else [Acquire n; QueryCall n QLeagueCount; Release n].
Proof.
  intro n. subst n. unfold_request; cbn.
  destruct (store_up (st_store st)) eqn:Hstore; repeat (cbn; rewrite Hstore); cbn;
    apply new_events_app; rewrite <- !app_assoc; reflexivity.
Qed.

Lemma store_failure_is_500_witness :
  GetPlayer 1 <> GetRoot
  /\ store_up (st_store (mkState (mkStore [] [] [] [] false) [] 0 [])) = false
  /\ fst (handle (GetPlayer 1) (mkState (mkStore [] [] [] [] false) [] 0 []))
     = mkResponse 500 BServerError.
Proof.
  split; [discriminate|]. split; [reflexivity|].
  exact (store_failure_is_500 (GetPlayer 1)
           (mkState (mkStore [] [] [] [] false) [] 0 []) ltac:(discriminate) eq_refl).
Defined.
